(** * cardcraft: the turn-based match engine

    A shallow embedding of [components/cardcraft/game/system.py]: the card
    view ([Card]), the match state ([Match]) with its capability predicates
    and transitions, followed by the properties of the design document
    that concern them.

    The engine stores its state in pyrsistent collections.  These are
    persistent: [set], [append] and [delete] return a new collection and
    leave the receiver as it was.  A [PMap] keyed by strings is a
    [gmap string _]; a [PVector] is a list; the one map whose iteration
    order the engine depends on ([players]) is kept as the list of its
    items in iteration order. *)

From Stdlib Require Import ZArith Ascii DecimalString Floats.
From stdpp Require Import base option list strings gmap.

Open Scope Z_scope.
Open Scope string_scope.
Open Scope list_scope.

(** ** Python values *)

(** The scalars a card field may hold ([Stat]), and the vectors that the
    engine stores in hands and decks. *)
#[warnings="-register-all"] Inductive value :=
  | VNone
  | VBool (b : bool)
  | VInt (z : Z)
  | VFloat (f : float)
  | VStr (s : string)
  | VVec (l : list value).

(** The exceptions the engine can raise. *)
Inductive error :=
  | KeyError (k : string)
  | IndexError
  | AssertionError
  | TypeError
  | ValueError
  | OverflowError
  | Exception (msg : string).

Inductive result (A : Type) :=
  | Ok (x : A)
  | Err (e : error).
Arguments Ok {A} x.
Arguments Err {A} e.

Definition bind {A B} (r : result A) (k : A -> result B) : result B :=
  match r with
  | Ok x => k x
  | Err e => Err e
  end.

Declare Scope py_scope.
Delimit Scope py_scope with py.
Notation "x <-- r ;; k" := (bind r (fun x => k))
  (at level 100, r at next level, right associativity) : py_scope.
Open Scope py_scope.

(** ** Builtins *)

(** [bool(x)]. *)
Definition truthy (x : value) : bool :=
  match x with
  | VNone => false
  | VBool b => b
  | VInt z => negb (Z.eqb z 0)
  | VFloat f => negb (PrimFloat.eqb f PrimFloat.zero)
  | VStr s => negb (String.eqb s "")
  | VVec l => negb (bool_decide (length l = 0%nat))
  end.

(** [float(z)]: the nearest double, ties to even; too large an integer
    raises. *)
Definition float_of_Z (z : Z) : result float :=
  let f := SF2Prim (binary_normalize prec emax z 0 false) in
  if PrimFloat.is_infinity f then Err OverflowError else Ok f.

(** [int(f)]: truncation towards zero. *)
Definition int_of_float (f : float) : result Z :=
  match Prim2SF f with
  | S754_zero _ => Ok 0
  | S754_infinity _ => Err OverflowError
  | S754_nan => Err ValueError
  | S754_finite s m e =>
      let a := if (0 <=? e)%Z then Z.pos m * 2 ^ e else Z.pos m / 2 ^ (- e) in
      Ok (if s then - a else a)
  end.

Definition digit_of (c : Ascii.ascii) : option Z :=
  let n := Z.of_N (Ascii.N_of_ascii c) in
  if (48 <=? n)%Z && (n <=? 57)%Z then Some (n - 48) else None.

(** The blanks that [int] skips around a literal: tab to carriage return,
    the space, and (beyond ASCII) the next-line and no-break-space
    characters.  A character of a model string is a code point below 256. *)
Definition is_space (c : Ascii.ascii) : bool :=
  let n := Z.of_N (Ascii.N_of_ascii c) in
  ((9 <=? n)%Z && (n <=? 13)%Z) || (n =? 32)%Z || (n =? 133)%Z || (n =? 160)%Z.

Fixpoint lstrip (s : string) : string :=
  match s with
  | String c s' => if is_space c then lstrip s' else s
  | EmptyString => s
  end.

Fixpoint all_space (s : string) : bool :=
  match s with
  | String c s' => is_space c && all_space s'
  | EmptyString => true
  end.

(** The run of digits of a literal, with single [_] allowed between two
    digits: its value, the number of digits, and what follows it.  [prev]
    tells that the character before was [_]. *)
Fixpoint scan_digits (acc : Z) (count : nat) (prev : bool) (s : string)
  : option (Z * nat * string) :=
  match s with
  | EmptyString => if prev then None else Some (acc, count, s)
  | String c s' =>
      match digit_of c with
      | Some d => scan_digits (10 * acc + d) (S count) false s'
      | None =>
          if Ascii.eqb c "_"%char
          then (if prev then None else scan_digits acc count true s')
          else (if prev then None else Some (acc, count, s))
      end
  end.

(** The interpreter's cap on the digits of a decimal literal (its
    default). *)
Definition int_max_str_digits : nat := 4300.

(** [int(s)]: blanks, an optional sign, decimal digits with optional
    single [_] between them, blanks; anything else, no digit at all, or
    more digits than the cap raises [ValueError]. *)
Definition int_of_str (s : string) : result Z :=
  let s1 := lstrip s in
  let '(sign, body) :=
    match s1 with
    | String "-"%char body => (-1, body)
    | String "+"%char body => (1, body)
    | _ => (1, s1)
    end in
  match body with
  | String "_"%char _ => Err ValueError
  | _ =>
      match scan_digits 0 0 false body with
      | Some (n, count, rest) =>
          if bool_decide (count = 0%nat)
             || bool_decide (int_max_str_digits < count)%nat
             || negb (all_space rest)
          then Err ValueError
          else Ok (sign * n)
      | None => Err ValueError
      end
  end.

Definition Z_of_bool (b : bool) : Z := if b then 1 else 0.

(** [int(x)]. *)
Definition py_int (x : value) : result Z :=
  match x with
  | VInt z => Ok z
  | VBool b => Ok (Z_of_bool b)
  | VFloat f => int_of_float f
  | VStr s => int_of_str s
  | VNone | VVec _ => Err TypeError
  end.

(** [x + n] for an integer [n]. *)
Definition py_add_int (x : value) (n : Z) : result value :=
  match x with
  | VInt z => Ok (VInt (z + n))
  | VBool b => Ok (VInt (Z_of_bool b + n))
  | VFloat f => g <-- float_of_Z n ;; Ok (VFloat (f + g)%float)
  | VNone | VStr _ | VVec _ => Err TypeError
  end.

(** [f * n] for a float [f] and an integer [n]. *)
Definition py_mul_float_int (f : float) (n : Z) : result float :=
  g <-- float_of_Z n ;; Ok (f * g)%float.

(** [n * f] for an integer [n] and a float [f]. *)
Definition py_mul_int_float (n : Z) (f : float) : result float :=
  g <-- float_of_Z n ;; Ok (g * f)%float.

(** [d[k]] on a mapping. *)
Definition getitem {A} (d : gmap string A) (k : string) : result A :=
  match d !! k with
  | Some x => Ok x
  | None => Err (KeyError k)
  end.

(** [v[-1]] on a vector. *)
Definition getitem_last {A} (v : list A) : result A :=
  match last v with
  | Some x => Ok x
  | None => Err IndexError
  end.

(** [v.set(-1, x)] on a non-empty vector. *)
Definition set_last {A} (v : list A) (x : A) : list A :=
  removelast v ++ [x].

(** [v.delete(-1)] on a non-empty vector. *)
Definition delete_last {A} (v : list A) : list A := removelast v.

(** [v[i]] on a vector, for an integer [i]: a negative [i] counts from the
    end. *)
Definition getitem_at {A} (v : list A) (i : Z) : result A :=
  let n := Z.of_nat (length v) in
  let j := if (i <? 0)%Z then i + n else i in
  if (0 <=? j)%Z && (j <? n)%Z
  then match v !! Z.to_nat j with
       | Some x => Ok x
       | None => Err IndexError
       end
  else Err IndexError.

(** [str(z)] for an integer. *)
Definition str_of_Z (z : Z) : string := NilZero.string_of_int (Z.to_int z).

(** [s.startswith(p)]. *)
Definition startswith (s p : string) : bool := String.prefix p s.

(** [s.split(sep)] for a one-character separator: the pieces between
    the occurrences of [sep], empty ones included. *)
Fixpoint split (sep : Ascii.ascii) (s : string) : list string :=
  match s with
  | EmptyString => [EmptyString]
  | String c s' =>
      if Ascii.eqb c sep then EmptyString :: split sep s'
      else match split sep s' with
           | w :: ws => String c w :: ws
           | [] => [String c EmptyString]
           end
  end.

(** [random.choice(seq)], the generator having rolled [r]: every element
    of [seq] is the choice for some roll, and an empty [seq] raises. *)
Definition choice {A} (r : nat) (seq : list A) : result A :=
  match seq !! (r mod length seq)%nat with
  | Some x => Ok x
  | None => Err IndexError
  end.

(** ** The card view *)

Definition DefaultCardMapping : gmap string string :=
  {[ "name" := "A_value"; "type" := "B_value"; "class" := "C_value";
     "atk" := "E_value"; "def" := "F_value" ]}.

Module Card.

(** [mapping] sends a stat name to a pair (field key, default). *)
Record t := mk {
  data : gmap string value;
  mapping : gmap string (string * value)
}.

Definition get (self : t) (stat : string) : value :=
  let mapping0 : option (string * value) := mapping self !! stat in
  let mapping1 :=
    match mapping0 with
    | None =>
        let priv := "_" +:+ stat in
        if bool_decide (is_Some (data self !! priv))
        then Some (priv, VNone) else None
    | Some _ => mapping0
    end in
  match mapping1 with
  | None => VNone
  | Some (key, default) =>
    match data self !! key with
    | Some x => x
    | None => VNone
    end
  end.

(** [self.data.set(...)] builds a new map; the card keeps the one it had
    and is returned as it is. *)
Definition rotate (self : t) (degrees : Z) : result t :=
  if truthy (default VNone (data self !! "_rotation_locked"))
  then Err AssertionError
  else
    let old := default (VInt 0) (data self !! "_rotation") in
    new <-- py_add_int old degrees ;;
    let _ := <["_rotation" := new]> (data self) in
    Ok self.

End Card.

(** ** Events, players, targets *)

Module Event.

Record t := mk {
  e : string;
  a : string;
  v : value
}.

End Event.

Module PlayerPot.

Record t := mk {
  txsig : option string;
  lamports : Z
}.

End PlayerPot.

Module Player.

(** [deck] is the deck document; its entry ["cards"] is the vector of
    card ids. *)
Record t := mk {
  pot : PlayerPot.t;
  hp : Z;
  hpmax : Z;
  name : string;
  deck : gmap string (list value);
  hand : list value
}.

Definition set_hand (self : t) (x : list value) : t :=
  mk (pot self) (hp self) (hpmax self) (name self) (deck self) x.

End Player.

Module Target.

Inductive t :=
  | Player
  | Field.

End Target.

(** ** Maps with an iteration order

    [players] is iterated by [end] and [v1_barrage]: it is the list of its
    items in iteration order; a well-formed one has no key twice. *)

Module Items.

Section Items.
Context {A : Type}.

Definition keys (d : list (string * A)) : list string := d.*1.

Definition values (d : list (string * A)) : list A := d.*2.

Fixpoint get (d : list (string * A)) (k : string) : option A :=
  match d with
  | [] => None
  | (k', x) :: d' => if bool_decide (k' = k) then Some x else get d' k
  end.

(** [d[k]]. *)
Definition getitem (d : list (string * A)) (k : string) : result A :=
  match get d k with
  | Some x => Ok x
  | None => Err (KeyError k)
  end.

(** [d.set(k, x)]. *)
Fixpoint set (d : list (string * A)) (k : string) (x : A) : list (string * A) :=
  match d with
  | [] => [(k, x)]
  | (k', y) :: d' =>
      if bool_decide (k' = k) then (k, x) :: d' else (k', y) :: set d' k x
  end.

Definition wf (d : list (string * A)) : Prop := NoDup (keys d).

End Items.

End Items.

(** ** The match state *)

Module Match.

(** [cursor] is the pair (turn index, event index); [turns] is the list of
    turn logs, the last one being the open turn. *)
Record t := mk {
  id : string;
  fields : list (list (option (gmap string value)));
  opener : option string;
  created : option Z;
  finished : option Z;
  winner : option string;
  futures : gmap string (list Event.t);
  players : list (string * Player.t);
  responses : gmap string (list string);
  cursor : Z * Z;
  turns : list (list Event.t)
}.

(** [self.set(field, x)], one function per field that the engine sets. *)
Definition set_turns (self : t) (x : list (list Event.t)) : t :=
  mk (id self) (fields self) (opener self) (created self) (finished self)
     (winner self) (futures self) (players self) (responses self)
     (cursor self) x.

Definition set_players (self : t) (x : list (string * Player.t)) : t :=
  mk (id self) (fields self) (opener self) (created self) (finished self)
     (winner self) (futures self) x (responses self)
     (cursor self) (turns self).

Definition set_winner (self : t) (x : option string) : t :=
  mk (id self) (fields self) (opener self) (created self) (finished self)
     x (futures self) (players self) (responses self)
     (cursor self) (turns self).

Definition set_finished (self : t) (x : option Z) : t :=
  mk (id self) (fields self) (opener self) (created self) x
     (winner self) (futures self) (players self) (responses self)
     (cursor self) (turns self).

(** *** Recording events *)

Definition do (self : t) (e a : string) (val : value) : result t :=
  open <-- getitem_last (turns self) ;;
  let registered := open ++ [Event.mk e a val] in
  Ok (set_turns self (set_last (turns self) registered)).

Definition end_turn (self : t) (player : string) : t :=
  set_turns self (turns self ++ [[]]).

(** *** Capabilities *)

Definition _is_turn (self : t) (ttype : Target.t) (t : string) : bool :=
  match ttype with
  | Target.Player =>
      let '(turn, _) := cursor self in
      Z.eqb (turn mod 2) (if bool_decide (opener self = Some t) then 0 else 1)
  | Target.Field => false
  end.

Definition had_drawn (t : string) (e : Event.t) : bool :=
  bool_decide (Event.e e = t) && bool_decide (Event.a e = "draw").

(** An event is a non-empty tuple: [any] counts every one it is given. *)
Definition event_truthy (e : Event.t) : bool := true.

Definition _can_draw (self : t) (ttype : Target.t) (t : string) : result bool :=
  match ttype with
  | Target.Player =>
      open <-- getitem_last (turns self) ;;
      let drawn := existsb event_truthy (List.filter (had_drawn t) open) in
      if drawn then Ok false else Ok (_is_turn self ttype t)
  | Target.Field => Ok false
  end.

Definition _can_play (self : t) (ttype : Target.t) (t : string) : bool :=
  _is_turn self ttype t.

Definition _can_respond (self : t) (ttype : Target.t) (t : string) : bool :=
  bool_decide (is_Some (responses self !! t)).

(** *** Dispatch by name

    [hasattr(self, method)] holds of the four predicates above and of
    whatever the instance inherits from its bases, [PClass] and [object]
    (no field and no other method of [Match] has a name that starts with
    an underscore).  The bases are not part of the engine: their
    attributes are the parameter [base_attr], each given as what calling
    it with [(ttype, t)] does. *)

Definition attr : Type := t -> Target.t -> string -> result value.

Section Dispatch.
Variable base_attr : string -> option attr.

Definition getattr (name : string) : option attr :=
  if bool_decide (name = "_can_draw") then
    Some (fun self ttype t => b <-- _can_draw self ttype t ;; Ok (VBool b))
  else if bool_decide (name = "_can_play") then
    Some (fun self ttype t => Ok (VBool (_can_play self ttype t)))
  else if bool_decide (name = "_can_respond") then
    Some (fun self ttype t => Ok (VBool (_can_respond self ttype t)))
  else if bool_decide (name = "_is_turn") then
    Some (fun self ttype t => Ok (VBool (_is_turn self ttype t)))
  else base_attr name.

Definition get (self : t) (fn : string) (ttype : Target.t) (t : string)
  : result value :=
  let method := "_" +:+ fn in
  match getattr method with
  | None => Err (Exception ("Match cannot get " +:+ fn))
  | Some f => f self ttype t
  end.

End Dispatch.

(** Of what an instance inherits from its bases, one attribute is used
    below.  Every Python object has [__init__], and [object.__init__]
    accepts and ignores the arguments it is given when the class defines
    [__new__] and no [__init__] of its own (as [PClass] does); it returns
    [None].  [with_init rest] answers [__init__] so and leaves every other
    name to [rest], the remaining attributes of the bases, whatever they
    are. *)
Definition object_init : attr := fun _ _ _ => Ok VNone.

Definition with_init (rest : string -> option attr) (name : string)
  : option attr :=
  if bool_decide (name = "__init__") then Some object_init else rest name.

(** *** Completion *)

Definition was_defeated (e : Player.t) : bool := (Player.hp e <=? 0)%Z.

(** A player document is a non-empty mapping: [any] counts every one it is
    given. *)
Definition player_truthy (e : Player.t) : bool := true.

(** The loop [for k in self.players.keys()], left at the first [k] whose
    player has hit points. *)
Fixpoint first_alive (players : list (string * Player.t)) (ks : list string)
  : result (option string) :=
  match ks with
  | [] => Ok None
  | k :: ks' =>
      p <-- Items.getitem players k ;;
      if (Player.hp p >? 0)%Z then Ok (Some k) else first_alive players ks'
  end.

(** [now] is the clock reading [int(time.time())]. *)
Definition end_ (now : Z) (self : t) : result t :=
  let defeated := List.filter was_defeated (Items.values (players self)) in
  if negb (existsb player_truthy defeated) then Ok self
  else
    winner <-- first_alive (players self) (Items.keys (players self)) ;;
    match winner with
    | None => Err AssertionError
    | Some w => Ok (set_finished (set_winner self (Some w)) (Some now))
    end.

(** *** Drawing *)

(** The loop [while n > 0: n -= 1; ...] runs its body [n] times unless it
    breaks; [iters] is that count.  [self] is never updated, so every
    round reads the same deck and the same hand. *)
Fixpoint draw_loop (self : t) (player : string) (iters : nat)
    (hand : list value) : result (list value) :=
  match iters with
  | O => Ok hand
  | S iters' =>
      p <-- Items.getitem (players self) player ;;
      cards <-- getitem (Player.deck p) "cards" ;;
      if (1 >? Z.of_nat (length cards))%Z then Ok hand
      else
        let card_id := VVec (delete_last cards) in
        let hand := Player.hand p ++ [card_id] in
        draw_loop self player iters' hand
  end.

Definition draw (self : t) (player : string) (num : string) : result t :=
  let hand := [] in
  n <-- py_int (VStr num) ;;
  hand <-- draw_loop self player (Z.to_nat n) hand ;;
  p <-- Items.getitem (players self) player ;;
  let changed := Player.set_hand p hand in
  let players := Items.set (players self) player changed in
  Ok (set_players self players).

(** *** Card effects *)

(** [card] is the empty placeholder of the source.  The result is [None]
    when the match has no player other than [played_by]. *)
Definition v1_barrage (self : t) (card_id played_by : string)
    (op_perc : float) (op_dmg_key : string)
    (pl_perc : float) (pl_dmg_key : string) : result (option t) :=
  let card : gmap string value := ∅ in
  let target :=
    head (List.filter (fun e => negb (bool_decide (e = played_by)))
            (Items.keys (players self))) in
  x <-- getitem card op_dmg_key ;;
  dmg <-- py_int x ;;
  match target with
  | None => Ok None
  | Some target =>
      x <-- getitem card op_dmg_key ;;
      i <-- py_int x ;;
      d <-- py_mul_float_int op_perc i ;;
      d <-- py_mul_int_float (-1) d ;;
      m1 <-- do self target "life" (VFloat d) ;;
      y <-- getitem card pl_dmg_key ;;
      j <-- py_int y ;;
      d' <-- py_mul_float_int pl_perc j ;;
      d' <-- py_mul_int_float (-1) d' ;;
      m2 <-- do m1 played_by "life" (VFloat d') ;;
      Ok (Some m2)
  end.

(** [amt] is rendered by [str]; a buff of zero reads as a decrease. *)
Definition v1_buff (self : t) (card_id played_by stat : string) (amt : Z)
  : result t :=
  let direction := if (amt >? 0)%Z then "increasing" else "decreasing" in
  do self played_by
    ("player activates buff " +:+ card_id +:+ " on f-0-2, " +:+ direction
     +:+ " target's " +:+ stat +:+ " by " +:+ str_of_Z amt)
    VNone.

(** The comparison [!=] of two values and their rendering by [str] are
    the runtime's; the effect is stated over both. *)
Section Continuous.
Variable py_ne : value -> value -> bool.
Variable py_str : value -> string.

(** The card view of a field slot: an empty slot is no mapping, and the
    view refuses it. *)
Definition slot_card (slot : option (gmap string value)) : result Card.t :=
  match slot with
  | Some data => Ok (Card.mk data ((fun v => (v, VNone)) <$> DefaultCardMapping))
  | None => Err TypeError
  end.

Definition v1_prevent_rotation_continuous (self : t)
    (card_id played_by target : string)
    (target_attribute : option string) (target_value : value) : result t :=
  _ <-- match target_attribute with
        | Some attribute =>
            if startswith target "f-" then
              match split "-" target with
              | [_; row; col] =>
                  r <-- py_int (VStr row) ;;
                  field <-- getitem_at (fields self) r ;;
                  c <-- py_int (VStr col) ;;
                  slot <-- getitem_at field c ;;
                  card <-- slot_card slot ;;
                  let actual_value := Card.get card attribute in
                  if py_ne target_value actual_value then
                    Err (Exception
                           ("Cannot apply v1_prevent_rotation_continuous on "
                            +:+ py_str (Card.get card "name") +:+ " - "
                            +:+ py_str target_value +:+ " <> "
                            +:+ py_str actual_value))
                  else Ok tt
              | _ => Err ValueError
              end
            else Ok tt
        | None => Ok tt
        end ;;
  do self played_by
    ("player applies continuous effect " +:+ card_id +:+ " on " +:+ target
     +:+ ", preventing rotation")
    VNone.

End Continuous.

(** [target] is overwritten with [None] before the event is written. *)
Definition v1_prevent_rotation_N_times (self : t)
    (card_id played_by : string) (num_of_turns : Z) (target : string)
    (target_attribute : option string) (target_value : value) : result t :=
  let target : option string := None in
  do self played_by
    ("player applies " +:+ str_of_Z num_of_turns +:+ "-turn effect "
     +:+ card_id +:+ " on " +:+ default "None" target
     +:+ ", preventing rotation")
    VNone.

(** The two debuffs have no body: they return [None]. *)
Definition v1_debuff (self : t) (card_id played_by stat : string) (amt : Z)
  : option t := None.

Definition v1_debuff_attacking (self : t) (card_id played_by stat : string)
    (amt : Z) : option t := None.

End Match.

(** ** The bot *)

Module Nemesis.

(** What the random generator rolls at the four places where the bot
    chooses. *)
Record rolls := mk_rolls {
  roll_card : nat;
  roll_row : nat;
  roll_slot : nat;
  roll_option : nat
}.

(** The free slots of the first three rows, row by row. *)
Definition row_positions (i : nat) (field : list (option (gmap string value)))
  : list string :=
  omap (fun js : nat * option (gmap string value) =>
          match js.2 with
          | None => Some ("f-" +:+ str_of_Z (Z.of_nat i) +:+ "-"
                          +:+ str_of_Z (Z.of_nat js.1))
          | Some _ => None
          end)
       (imap pair field).

Definition positions (fields : list (list (option (gmap string value))))
  : list (list string) :=
  (fun ifield : nat * list (option (gmap string value)) =>
     row_positions ifield.1 ifield.2)
  <$> List.filter (fun ifield : nat * list (option (gmap string value)) =>
                     (ifield.1 <? 3)%nat)
        (imap pair fields).

(** The loop [while 1 > len(hand): sleep(1)]: the match it reads is never
    updated; [fuel] bounds the rounds, and [None] is "still waiting". *)
Fixpoint wait_hand (fuel : nat) (m : Match.t) (name : string)
  : option (result unit) :=
  match fuel with
  | O => None
  | S fuel' =>
      match Items.getitem (Match.players m) name with
      | Err e => Some (Err e)
      | Ok p =>
          if (1 >? Z.of_nat (length (Player.hand p)))%Z
          then wait_hand fuel' m name
          else Some (Ok tt)
      end
  end.

Section Bot.
Variable base_attr : string -> option Match.attr.
Variable py_str : value -> string.

(** What follows the wait: the options are completed, one is chosen and
    recorded, and the end of the turn is recorded. *)
Definition play (r : rolls) (name : string) (m : Match.t)
    (positions : list (list string))
    (options : list (string * string * value)) : result Match.t :=
  options <-- (if existsb (fun row => negb (bool_decide (row = []))) positions
               then
                 p <-- Items.getitem (Match.players m) name ;;
                 card <-- choice (roll_card r) (Player.hand p) ;;
                 row <-- choice (roll_row r) positions ;;
                 pos <-- choice (roll_slot r) row ;;
                 Ok (options ++
                     [(name,
                       "bot plays card " +:+ py_str card
                       +:+ " to field position " +:+ pos,
                       VNone)])
               else Ok options) ;;
  if (0 <? length options)%nat then
    chose <-- choice (roll_option r) options ;;
    m1 <-- Match.do m chose.1.1 chose.1.2 chose.2 ;;
    Match.do m1 name "end_turn" VNone
  else Match.do m name "end_turn" VNone.

Definition do (fuel : nat) (r : rolls) (self : Player.t) (m : Match.t)
  : option (result Match.t) :=
  let name := Player.name self in
  let positions := positions (Match.fields m) in
  let responses := default [] (Match.responses m !! name) in
  match Match.get base_attr m "is_turn" Target.Player name with
  | Err e => Some (Err e)
  | Ok turn =>
      if negb (truthy turn) then Some (Ok m)
      else
        match Match.get base_attr m "can_draw" Target.Player name with
        | Err e => Some (Err e)
        | Ok can =>
            let options :=
              if truthy can then [(name, "draw", VStr "3")] else [] in
            match wait_hand fuel m name with
            | None => None
            | Some (Err e) => Some (Err e)
            | Some (Ok _) => Some (play r name m positions options)
            end
        end
  end.

End Bot.

End Nemesis.

(** ** A match to run the engine on

    Two players, [p1] (the opener) and [p2]; one open, empty turn; the
    cursor at the start; five cards in the deck of [p1], none in hand. *)

Definition new_player (name : string) (cards : list value) : Player.t :=
  Player.mk (PlayerPot.mk None 0) 5000 5000 name {[ "cards" := cards ]} [].

Definition p1_cards : list value :=
  [VStr "c1"; VStr "c2"; VStr "c3"; VStr "c4"; VStr "c5"].

Definition scenario : Match.t :=
  Match.mk "m" [] (Some "p1") (Some 0) None None ∅
    [("p1", new_player "P1" p1_cards); ("p2", new_player "P2" [])]
    ∅ (0, 0) [[]].

(** The same match after a fight that [p1] lost. *)
Definition hurt (hp : Z) (p : Player.t) : Player.t :=
  Player.mk (Player.pot p) hp (Player.hpmax p) (Player.name p)
    (Player.deck p) (Player.hand p).

Definition lost_match : Match.t :=
  Match.set_players scenario
    [("p1", hurt 0 (new_player "P1" p1_cards));
     ("p2", hurt 1200 (new_player "P2" []))].

(** ** Cards to run the view on *)

Definition atk_card : Card.t :=
  Card.mk {[ "E_value" := VInt 7 ]} {[ "atk" := ("E_value", VNone) ]}.

Definition rage_card : Card.t :=
  Card.mk {[ "_rage" := VInt 3 ]} {[ "atk" := ("E_value", VNone) ]}.

Definition turned_card : Card.t :=
  Card.mk {[ "_rotation" := VInt 10 ]} ∅.

Definition blank_card : Card.t := Card.mk ∅ ∅.

(** A value read from raw data, [None] when the key is absent:
    [data.get(key, None)]. *)
Definition raw (c : Card.t) (key : string) : value :=
  default VNone (Card.data c !! key).

(** ** Readings used by the statements *)

(** The capability names that class [Match] registers. *)
Definition registered : list string :=
  ["is_turn"; "can_draw"; "can_play"; "can_respond"].

(** The first key, in iteration order, whose player has hit points. *)
Definition alive_in (d : list (string * Player.t)) : option string :=
  fst <$> List.find (fun kp => (Player.hp kp.2 >? 0)%Z) d.

(** Some player is defeated. *)
Definition some_defeated (d : list (string * Player.t)) : Prop :=
  exists k p, (k, p) ∈ d /\ Player.hp p <= 0.

(** No player has hit points. *)
Definition all_defeated (d : list (string * Player.t)) : Prop :=
  forall k p, (k, p) ∈ d -> Player.hp p <= 0.

(** ** A board to run the effects and the bot on

    Row 0 is full, row 1 has two free slots, rows 2 and 3 are free;
    [bot1] opens, holds one card and has the turn. *)

Definition wolf : gmap string value :=
  {[ "A_value" := VStr "Wolf"; "E_value" := VInt 7 ]}.

Definition board : Match.t :=
  Match.mk "b"
    [[Some wolf; Some wolf; Some wolf]; [None; Some wolf; None];
     [None; None; None]; [None; None; None]]
    (Some "bot1") (Some 0) None None ∅
    [("bot1", Player.mk (PlayerPot.mk None 0) 5000 5000 "BOT1"
                {[ "cards" := p1_cards ]} [VStr "c9"]);
     ("p2", new_player "P2" [])]
    ∅ (0, 0) [[]].

(** A base to run the dispatch and the bot on: the initialiser and
    nothing else.  The theorems hold for every base; this one only
    instantiates them. *)
Definition sample_base : string -> option Match.attr :=
  Match.with_init (fun _ => None).

(** The bot as a player whose [name] is its key in [players]. *)
Definition bot (name : string) : Player.t :=
  Player.mk (PlayerPot.mk None 0) 5000 5000 name ∅ [].

(** A rendering and a comparison to run the effects with: exact on
    strings and integers. *)
Definition show (x : value) : string :=
  match x with
  | VStr s => s
  | VInt z => str_of_Z z
  | VNone => "None"
  | _ => "?"
  end.

Definition differ (x y : value) : bool :=
  match x, y with
  | VInt a, VInt b => negb (Z.eqb a b)
  | VStr a, VStr b => negb (String.eqb a b)
  | VNone, VNone => false
  | _, _ => true
  end.

(** A value that [+] cannot add an integer to. *)
Definition non_numeric (x : value) : Prop :=
  match x with
  | VNone | VStr _ | VVec _ => True
  | VBool _ | VInt _ | VFloat _ => False
  end.

(** A card whose rotation counter is text, and a locked one. *)
Definition odd_card : Card.t := Card.mk {[ "_rotation" := VStr "north" ]} ∅.

Definition locked_card : Card.t :=
  Card.mk {[ "_rotation_locked" := VBool true; "_rotation" := VInt 10 ]} ∅.

(** The text that the continuous effect records. *)
Definition continuous_text (card_id target : string) : string :=
  "player applies continuous effect " +:+ card_id +:+ " on " +:+ target
  +:+ ", preventing rotation".

(** The scenario once [p1] has drawn three, the board once [bot1] has
    drawn none, and the lost match once it is decided at clock reading
    5, each written out field by field. *)
Definition scenario_drawn : Match.t :=
  Match.mk "m" [] (Some "p1") (Some 0) None None ∅
    [("p1", Player.mk (PlayerPot.mk None 0) 5000 5000 "P1"
              {[ "cards" := p1_cards ]}
              [VVec [VStr "c1"; VStr "c2"; VStr "c3"; VStr "c4"]]);
     ("p2", new_player "P2" [])]
    ∅ (0, 0) [[]].

Definition board_drawn_none : Match.t :=
  Match.mk "b"
    [[Some wolf; Some wolf; Some wolf]; [None; Some wolf; None];
     [None; None; None]; [None; None; None]]
    (Some "bot1") (Some 0) None None ∅
    [("bot1", Player.mk (PlayerPot.mk None 0) 5000 5000 "BOT1"
                {[ "cards" := p1_cards ]} []);
     ("p2", new_player "P2" [])]
    ∅ (0, 0) [[]].

Definition lost_decided : Match.t :=
  Match.mk "m" [] (Some "p1") (Some 0) (Some 5) (Some "p2") ∅
    [("p1", hurt 0 (new_player "P1" p1_cards));
     ("p2", hurt 1200 (new_player "P2" []))]
    ∅ (0, 0) [[]].

(** * Properties *)

(** ** Helper facts *)

Lemma bind_ok {A B} (r : result A) (k : A -> result B) (y : B) :
  bind r k = Ok y <-> exists x, r = Ok x /\ k x = Ok y.
Proof.
  destruct r as [x|e]; simpl; split.
  - intros H. exists x. auto.
  - intros (x' & Hx & Hk). congruence.
  - discriminate.
  - intros (x' & Hx & _). discriminate.
Qed.

Lemma underscore_inj (fn name : string) :
  "_" +:+ fn = "_" +:+ name <-> fn = name.
Proof.
  simpl. split; [intros H; injection H; auto | intros ->; reflexivity].
Qed.

Lemma items_get_app_fresh {A} (pre post : list (string * A)) k x :
  k ∉ Items.keys pre ->
  Items.get (pre ++ (k, x) :: post) k = Some x.
Proof.
  induction pre as [|[k' y] pre IH]; simpl; intros Hk.
  - rewrite bool_decide_eq_true_2; auto.
  - unfold Items.keys in Hk. simpl in Hk.
    apply not_elem_of_cons in Hk as [Hne Hk].
    rewrite bool_decide_eq_false_2 by congruence. apply IH, Hk.
Qed.

Lemma items_get_elem_of {A} (d : list (string * A)) k x :
  Items.get d k = Some x -> (k, x) ∈ d.
Proof.
  induction d as [|[k' y] d IH]; simpl; [discriminate|].
  case_bool_decide as Hk.
  - intros [= ->]. subst. left.
  - intros H. right. auto.
Qed.

(** ** The card view *)

(** C6. [get(stat)] reads the raw data at the mapped field key when the
    mapping contains [stat]; failing that it reads the private key
    ["_" + stat] when the raw data has it; failing that it is [None].
    With the mapping [{"atk": "E_value"}]: on raw data [{"E_value": 7}],
    [get("atk")] is 7; on raw data [{"_rage": 3}], [get("rage")] is 3;
    and [get("cost")] is [None]. *)
Theorem C6_card_get_precedence (c : Card.t) (stat : string) :
  (forall key dflt, Card.mapping c !! stat = Some (key, dflt) ->
     Card.get c stat = raw c key)
  /\ (forall x, Card.mapping c !! stat = None ->
        Card.data c !! ("_" +:+ stat) = Some x ->
        Card.get c stat = x)
  /\ (Card.mapping c !! stat = None ->
      Card.data c !! ("_" +:+ stat) = None ->
      Card.get c stat = VNone)
  /\ Card.get atk_card "atk" = VInt 7
  /\ Card.get rage_card "rage" = VInt 3
  /\ Card.get atk_card "cost" = VNone.
Proof.
  unfold Card.get, raw. repeat split.
  - intros key dflt ->. reflexivity.
  - intros x -> Hx.
    rewrite bool_decide_eq_true_2 by (rewrite Hx; eauto).
    rewrite Hx. reflexivity.
  - intros -> Hx.
    rewrite bool_decide_eq_false_2; [reflexivity|].
    rewrite Hx. apply is_Some_None.
Qed.

(** X11. A locked card cannot be rotated: this half of the rotation rule
    holds. *)
Lemma rotate_locked (c : Card.t) (degrees : Z) :
  truthy (raw c "_rotation_locked") = true ->
  Card.rotate c degrees = Err AssertionError.
Proof.
  unfold Card.rotate, raw. intros ->. reflexivity.
Qed.

(** X10. Whatever [rotate] returns is the card it was called on. *)
Lemma rotate_returns_self (c c' : Card.t) (degrees : Z) :
  Card.rotate c degrees = Ok c' -> c' = c.
Proof.
  unfold Card.rotate.
  destruct (truthy _); [discriminate|].
  destruct (py_add_int _ _); simpl; congruence.
Qed.

(** C7, evaluated.  Rotating an unlocked card by 5 whose counter is 10
    returns the card with the counter still 10, and rotating a card with
    no counter by 90 returns it with no counter: the sum [old + degrees]
    is computed and stored in a map that [rotate] drops. *)
Theorem C7_rotate_leaves_counter :
  Card.rotate turned_card 5 = Ok turned_card
  /\ Card.get turned_card "rotation" = VInt 10
  /\ Card.rotate blank_card 90 = Ok blank_card
  /\ Card.get blank_card "rotation" = VNone.
Proof. repeat split; vm_compute; reflexivity. Qed.

(** ** Turns *)

(** C2. [is_turn(Player, p)] is true exactly when "the turn index is even"
    and "the opener is [p]" agree: at an even turn index the opener, and
    only the opener, has the turn, at an odd one everyone but the opener;
    for a [Field] target it is false. *)
Theorem C2_is_turn_parity (m : Match.t) (p : string) :
  (Match._is_turn m Target.Player p = true <->
     ((Match.cursor m).1 mod 2 = 0 <-> Match.opener m = Some p))
  /\ ((Match.cursor m).1 mod 2 = 0 ->
      Match._is_turn m Target.Player p = bool_decide (Match.opener m = Some p))
  /\ ((Match.cursor m).1 mod 2 = 1 ->
      Match._is_turn m Target.Player p
      = negb (bool_decide (Match.opener m = Some p)))
  /\ Match._is_turn m Target.Field p = false.
Proof.
  unfold Match._is_turn. destruct (Match.cursor m) as [turn ev]. simpl.
  assert (Hmod : turn mod 2 = 0 \/ turn mod 2 = 1)
    by (pose proof (Z.mod_pos_bound turn 2); lia).
  split; [|split; [|split]].
  - rewrite Z.eqb_eq. case_bool_decide as Hop; [tauto|].
    split; [intros H; split; [lia | contradiction] | ].
    intros H. destruct Hmod as [H0|H1]; [|assumption].
    exfalso. apply Hop, H, H0.
  - intros ->. case_bool_decide; reflexivity.
  - intros ->. case_bool_decide; reflexivity.
  - reflexivity.
Qed.

(** C10. [end_turn(actor)] appends one empty turn log to [turns] and
    leaves every other field as it was, whoever [actor] is. *)
Theorem C10_end_turn_frame (m : Match.t) (actor : string) :
  Match.turns (Match.end_turn m actor) = Match.turns m ++ [[]]
  /\ Match.cursor (Match.end_turn m actor) = Match.cursor m
  /\ Match.players (Match.end_turn m actor) = Match.players m
  /\ Match.responses (Match.end_turn m actor) = Match.responses m
  /\ Match.winner (Match.end_turn m actor) = Match.winner m
  /\ Match.finished (Match.end_turn m actor) = Match.finished m
  /\ Match.id (Match.end_turn m actor) = Match.id m
  /\ Match.fields (Match.end_turn m actor) = Match.fields m
  /\ Match.opener (Match.end_turn m actor) = Match.opener m
  /\ Match.created (Match.end_turn m actor) = Match.created m
  /\ Match.futures (Match.end_turn m actor) = Match.futures m.
Proof. repeat split. Qed.

(** [is_turn] reads the cursor and the opener, which [end_turn] leaves
    alone. *)
Lemma is_turn_end_turn (m : Match.t) (actor : string) ttype (t : string) :
  Match._is_turn (Match.end_turn m actor) ttype t = Match._is_turn m ttype t.
Proof. reflexivity. Qed.

(** C4, as the claim has it, fails on the match of the scenario: [p1]
    opens and has the turn, and after [end_turn] it is not the case that
    [p1] has lost the turn and [p2] has it. *)
Lemma C4_counterexample :
  Match.opener scenario = Some "p1"
  /\ Match._is_turn scenario Target.Player "p1" = true
  /\ ~ (Match._is_turn (Match.end_turn scenario "p1") Target.Player "p1" = false
        /\ Match._is_turn (Match.end_turn scenario "p1") Target.Player "p2"
           = true).
Proof.
  split; [reflexivity|]. split; [reflexivity|].
  intros [H _]. vm_compute in H. discriminate.
Qed.

(** C4, amended.  When the opener [p1] has the turn, after one [end_turn]
    [p1] still has it and the second player [p2] still does not:
    [end_turn] does not move the cursor. *)
Theorem C4_end_turn_keeps_turn (m : Match.t) (p1 p2 actor : string) :
  Match.opener m = Some p1 ->
  p2 <> p1 ->
  Match._is_turn m Target.Player p1 = true ->
  Match._is_turn (Match.end_turn m actor) Target.Player p1 = true
  /\ Match._is_turn (Match.end_turn m actor) Target.Player p2 = false.
Proof.
  intros Hop Hne Hturn. rewrite !is_turn_end_turn. split; [assumption|].
  revert Hturn. unfold Match._is_turn.
  destruct (Match.cursor m) as [turn ev]. rewrite Hop.
  rewrite bool_decide_eq_true_2 by reflexivity.
  rewrite bool_decide_eq_false_2 by congruence.
  rewrite Z.eqb_eq. intros ->. reflexivity.
Qed.

Lemma C4_end_turn_keeps_turn_witness :
  Match._is_turn (Match.end_turn scenario "p1") Target.Player "p1" = true
  /\ Match._is_turn (Match.end_turn scenario "p1") Target.Player "p2" = false.
Proof.
  apply (C4_end_turn_keeps_turn scenario "p1" "p2" "p1").
  - reflexivity.
  - discriminate.
  - reflexivity.
Defined.

(** ** Drawing rights *)

Lemma existsb_event_truthy (f : Event.t -> bool) (l : list Event.t) :
  existsb Match.event_truthy (List.filter f l) = existsb f l.
Proof.
  induction l as [|ev l IH]; simpl; [reflexivity|].
  destruct (f ev); simpl; auto.
Qed.

Lemma had_drawn_spec (p : string) (open : list Event.t) :
  existsb (Match.had_drawn p) open = true <->
  exists ev, ev ∈ open /\ Event.e ev = p /\ Event.a ev = "draw".
Proof.
  rewrite existsb_exists. unfold Match.had_drawn.
  split; intros (ev & Hin & H); exists ev.
  - apply andb_true_iff in H as [H1 H2].
    apply bool_decide_eq_true in H1, H2.
    rewrite list_elem_of_In. auto.
  - destruct H as [H1 H2]. rewrite <- list_elem_of_In. split; [assumption|].
    rewrite !bool_decide_eq_true_2; auto.
Qed.

Lemma can_draw_open (m : Match.t) (p : string) (open : list Event.t) :
  last (Match.turns m) = Some open ->
  Match._can_draw m Target.Player p
  = Ok (if existsb (Match.had_drawn p) open then false
        else Match._is_turn m Target.Player p).
Proof.
  intros Hopen. unfold Match._can_draw, getitem_last. rewrite Hopen. simpl.
  rewrite existsb_event_truthy. destruct (existsb _ _); reflexivity.
Qed.

Lemma do_open (m : Match.t) (e a : string) (val : value) open :
  last (Match.turns m) = Some open ->
  Match.do m e a val
  = Ok (Match.set_turns m
          (removelast (Match.turns m) ++ [open ++ [Event.mk e a val]])).
Proof.
  intros Hopen. unfold Match.do, getitem_last. rewrite Hopen. reflexivity.
Qed.

(** C5. With [open] the open turn: [can_draw(Player, p)] is false when
    [open] holds a draw event of [p], and is [is_turn(Player, p)]
    otherwise.  Once [p] has recorded a draw, [can_draw] of [p] is false;
    after the following [end_turn] it is [is_turn] of [p] again, so it is
    true again when it was true before the draw. *)
Theorem C5_can_draw (m : Match.t) (p : string) (open : list Event.t) :
  last (Match.turns m) = Some open ->
  ((exists ev, ev ∈ open /\ Event.e ev = p /\ Event.a ev = "draw") ->
     Match._can_draw m Target.Player p = Ok false)
  /\ (~ (exists ev, ev ∈ open /\ Event.e ev = p /\ Event.a ev = "draw") ->
      Match._can_draw m Target.Player p
      = Ok (Match._is_turn m Target.Player p))
  /\ (forall n, exists m',
        Match.do m p "draw" n = Ok m'
        /\ Match._can_draw m' Target.Player p = Ok false
        /\ forall actor,
             Match._can_draw (Match.end_turn m' actor) Target.Player p
             = Ok (Match._is_turn m Target.Player p)
             /\ (Match._can_draw m Target.Player p = Ok true ->
                 Match._can_draw (Match.end_turn m' actor) Target.Player p
                 = Ok true)).
Proof.
  intros Hopen. pose proof (can_draw_open m p open Hopen) as Hcd.
  split; [|split].
  - intros Hev. apply had_drawn_spec in Hev. rewrite Hcd, Hev. reflexivity.
  - intros Hev. rewrite Hcd.
    destruct (existsb _ _) eqn:Hex; [|reflexivity].
    apply had_drawn_spec in Hex. contradiction.
  - intros n. eexists. split; [apply (do_open _ _ _ _ _ Hopen)|].
    set (m' := Match.set_turns m _).
    assert (Hafter : forall actor,
      Match._can_draw (Match.end_turn m' actor) Target.Player p
      = Ok (Match._is_turn m Target.Player p)).
    { intros actor.
      rewrite (can_draw_open _ p []) by (simpl; apply last_snoc).
      reflexivity. }
    split.
    + rewrite (can_draw_open m' p (open ++ [Event.mk p "draw" n]))
        by (simpl; apply last_snoc).
      rewrite existsb_app. simpl. unfold Match.had_drawn at 2. simpl.
      rewrite !bool_decide_eq_true_2 by reflexivity.
      simpl. rewrite orb_true_r. reflexivity.
    + intros actor. split; [apply Hafter|].
      rewrite Hafter, Hcd. destruct (existsb _ _); congruence.
Qed.

Lemma C5_can_draw_witness :
  Match._can_draw scenario Target.Player "p1" = Ok true
  /\ exists m',
       Match.do scenario "p1" "draw" (VInt 3) = Ok m'
       /\ Match._can_draw m' Target.Player "p1" = Ok false
       /\ Match._can_draw (Match.end_turn m' "p1") Target.Player "p1" = Ok true.
Proof.
  split; [reflexivity|].
  destruct (C5_can_draw scenario "p1" [] eq_refl) as (_ & _ & H).
  destruct (H (VInt 3)) as (m' & Hdo & Hno & Hend).
  exists m'. split; [exact Hdo|]. split; [exact Hno|].
  apply (Hend "p1"). reflexivity.
Defined.

(** ** Dispatch *)

(** A registered capability is dispatched to its predicate. *)
Lemma get_registered base (m : Match.t) ttype (t : string) :
  Match.get base m "is_turn" ttype t = Ok (VBool (Match._is_turn m ttype t))
  /\ Match.get base m "can_play" ttype t
     = Ok (VBool (Match._can_play m ttype t))
  /\ Match.get base m "can_respond" ttype t
     = Ok (VBool (Match._can_respond m ttype t))
  /\ Match.get base m "can_draw" ttype t
     = (b <-- Match._can_draw m ttype t ;; Ok (VBool b)).
Proof. repeat split. Qed.

(** X24. A name that neither the class nor its bases answer is refused,
    with an error that carries the name. *)
Lemma get_unknown base (m : Match.t) (fn : string) ttype (t : string) :
  fn ∉ registered ->
  base ("_" +:+ fn) = None ->
  Match.get base m fn ttype t = Err (Exception ("Match cannot get " +:+ fn)).
Proof.
  intros Hfn Hbase. unfold Match.get, Match.getattr.
  assert (Hne : forall name, name ∈ registered -> "_" +:+ fn <> "_" +:+ name).
  { intros name Hin Heq. apply (proj1 (underscore_inj fn name)) in Heq.
    subst name. exact (Hfn Hin). }
  repeat (rewrite bool_decide_eq_false_2;
          [| apply Hne; unfold registered; set_solver]).
  rewrite Hbase. reflexivity.
Qed.

(** C8, evaluated.  The name [_init__] is not a registered capability,
    and [get] turns it into [__init__], which every instance has: the
    guard lets it through, the initialiser is called with the target and
    returns [None].  No error is raised, for any match and target, and
    whatever else the bases provide. *)
Theorem C8_get_init_returns_none (rest : string -> option Match.attr)
    (m : Match.t) ttype (t : string) :
  ("_init__" ∉ registered)
  /\ Match.get (Match.with_init rest) m "_init__" ttype t = Ok VNone.
Proof.
  split; [|reflexivity].
  intros H. apply list_elem_of_In in H. simpl in H. intuition discriminate.
Qed.

(** ** Card effects *)

(** C9, evaluated.  [v1_barrage] reads the damage stat from the empty
    placeholder card, which raises [KeyError] before any event is
    recorded: for every match, caster, percentages and stat keys the call
    fails and returns no state. *)
Theorem C9_v1_barrage_raises (m : Match.t) (card_id played_by : string)
    (op_perc pl_perc : float) (op_dmg_key pl_dmg_key : string) :
  Match.v1_barrage m card_id played_by op_perc op_dmg_key pl_perc pl_dmg_key
  = Err (KeyError op_dmg_key).
Proof.
  unfold Match.v1_barrage, getitem. rewrite lookup_empty. reflexivity.
Qed.

(** ** Completion *)

Lemma first_alive_suffix (pre suf : list (string * Player.t)) :
  Items.wf (pre ++ suf) ->
  Match.first_alive (pre ++ suf) (Items.keys suf) = Ok (alive_in suf).
Proof.
  revert pre. induction suf as [|[k p] suf IH]; intros pre Hwf.
  - reflexivity.
  - assert (Hfresh : k ∉ Items.keys pre).
    { unfold Items.wf, Items.keys in *. rewrite fmap_app in Hwf.
      apply NoDup_app in Hwf as (_ & Hdisj & _).
      intros Hin. apply (Hdisj k Hin). simpl. left. }
    simpl. unfold Items.getitem.
    rewrite (items_get_app_fresh pre suf k p Hfresh). simpl.
    unfold alive_in. simpl.
    destruct (Player.hp p >? 0)%Z; [reflexivity|].
    specialize (IH (pre ++ [(k, p)])).
    rewrite <- app_assoc in IH. simpl in IH. apply IH, Hwf.
Qed.

Lemma any_defeated_spec (d : list (string * Player.t)) :
  existsb Match.player_truthy
    (List.filter Match.was_defeated (Items.values d)) = true
  <-> some_defeated d.
Proof.
  unfold some_defeated, Items.values, Match.was_defeated.
  rewrite existsb_exists. split.
  - intros (p & Hin & _). apply filter_In in Hin as [Hin Hhp].
    apply list_elem_of_In, list_elem_of_fmap in Hin as ([k p'] & -> & Hin).
    exists k, p'. split; [assumption|]. simpl in Hhp. lia.
  - intros (k & p & Hin & Hhp). exists p. split; [|reflexivity].
    apply filter_In. split; [|lia].
    apply list_elem_of_In, list_elem_of_fmap. exists (k, p). auto.
Qed.

Lemma alive_in_none (d : list (string * Player.t)) :
  alive_in d = None <-> all_defeated d.
Proof.
  unfold alive_in, all_defeated. rewrite fmap_None. split.
  - intros Hnone k p Hin. apply list_elem_of_In in Hin.
    pose proof (find_none _ _ Hnone _ Hin) as H. simpl in H. lia.
  - intros Hall. destruct (List.find _ d) as [[k p]|] eqn:Hfind; [|reflexivity].
    apply find_some in Hfind as [Hin Hhp].
    apply list_elem_of_In, Hall in Hin. simpl in Hhp. lia.
Qed.

Lemma alive_in_first (pre post : list (string * Player.t)) k p :
  all_defeated pre -> 0 < Player.hp p ->
  alive_in (pre ++ (k, p) :: post) = Some k.
Proof.
  unfold alive_in. induction pre as [|[k' p'] pre IH]; intros Hpre Hp; simpl.
  - destruct (Player.hp p >? 0)%Z eqn:E; [reflexivity | lia].
  - assert (Player.hp p' <= 0) by (apply (Hpre k'); left).
    destruct (Player.hp p' >? 0)%Z eqn:E; [lia|].
    apply IH; [|assumption].
    intros k0 p0 Hin. apply (Hpre k0). right. assumption.
Qed.

(** C3. On a match whose players are well formed: [end()] returns the
    state as it is when no player is defeated; when some player is
    defeated and [k] is the first player in iteration order with hit
    points, it returns a state whose [winner] is [k] and whose
    [finished] is the clock reading, every other field being as it was; and it fails, with [AssertionError], exactly
    when some player is defeated and none has hit points. *)
Theorem C3_end_outcomes (now : Z) (m : Match.t) :
  Items.wf (Match.players m) ->
  (~ some_defeated (Match.players m) -> Match.end_ now m = Ok m)
  /\ (forall pre k p post,
        Match.players m = pre ++ (k, p) :: post ->
        all_defeated pre -> 0 < Player.hp p ->
        some_defeated (Match.players m) ->
        exists m',
          Match.end_ now m = Ok m'
          /\ Match.winner m' = Some k
          /\ Match.finished m' = Some now
          /\ Match.players m' = Match.players m
          /\ Match.turns m' = Match.turns m
          /\ Match.cursor m' = Match.cursor m
          /\ Match.responses m' = Match.responses m
          /\ Match.id m' = Match.id m
          /\ Match.fields m' = Match.fields m
          /\ Match.opener m' = Match.opener m
          /\ Match.created m' = Match.created m
          /\ Match.futures m' = Match.futures m)
  /\ ((exists e, Match.end_ now m = Err e)
      <-> some_defeated (Match.players m) /\ all_defeated (Match.players m))
  /\ (forall e, Match.end_ now m = Err e -> e = AssertionError).
Proof.
  intros Hwf.
  pose proof (first_alive_suffix [] (Match.players m) Hwf) as Hfirst.
  simpl in Hfirst.
  pose proof (any_defeated_spec (Match.players m)) as Hany.
  unfold Match.end_. rewrite Hfirst. simpl.
  destruct (existsb _ _) eqn:Hex; simpl.
  - assert (Hdef : some_defeated (Match.players m)) by (apply Hany; reflexivity).
    split; [contradiction|]. split; [|split].
    + intros pre k p post Heq Hpre Hp _.
      assert (Hk : alive_in (Match.players m) = Some k)
        by (rewrite Heq; apply alive_in_first; assumption).
      rewrite Hk. eexists. split; [reflexivity|]. repeat split.
    + destruct (alive_in _) as [w|] eqn:Hw.
      * split; [intros [e He]; discriminate|].
        intros [_ Hall]. apply alive_in_none in Hall. congruence.
      * split; [|eauto]. intros _. split; [assumption|].
        apply alive_in_none, Hw.
    + intros e. destruct (alive_in _); congruence.
  - assert (Hnone : ~ some_defeated (Match.players m)).
    { intros H. apply Hany in H. congruence. }
    split; [reflexivity|]. split; [|split].
    + intros; contradiction.
    + split; [intros [e He]; discriminate | intros [H _]; contradiction].
    + discriminate.
Qed.

Lemma C3_end_outcomes_witness :
  Items.wf (Match.players lost_match)
  /\ exists m',
       Match.end_ 1730000000 lost_match = Ok m'
       /\ Match.winner m' = Some "p2"
       /\ Match.finished m' = Some 1730000000.
Proof.
  assert (Hwf : Items.wf (Match.players lost_match)).
  { unfold Items.wf, Items.keys. simpl.
    apply NoDup_cons. split; [|apply NoDup_singleton].
    intros H. apply list_elem_of_singleton in H. discriminate. }
  split; [exact Hwf|].
  destruct (C3_end_outcomes 1730000000 lost_match Hwf) as (_ & Hwin & _).
  destruct (Hwin [("p1", hurt 0 (new_player "P1" p1_cards))] "p2"
              (hurt 1200 (new_player "P2" [])) [])
    as (m' & Hend & Hwinner & Hfinished & _);
    [| | | | exists m'; auto].
  - reflexivity.
  - intros k p Hin. apply list_elem_of_singleton in Hin.
    injection Hin as _ ->. simpl. lia.
  - simpl. lia.
  - exists "p1", (hurt 0 (new_player "P1" p1_cards)).
    split; [left | simpl; lia].
Defined.

(** ** Drawing *)

(** The loop stores at most one thing in [hand]: the hand the player had,
    followed by one entry, the deck without its last card. *)
Lemma draw_loop_eq (m : Match.t) (player : string) (p : Player.t)
    (cards : list value) (iters : nat) (hand0 : list value) :
  Items.get (Match.players m) player = Some p ->
  Player.deck p !! "cards" = Some cards ->
  Match.draw_loop m player iters hand0
  = Ok (match iters, cards with
        | O, _ | _, [] => hand0
        | S _, _ :: _ => Player.hand p ++ [VVec (removelast cards)]
        end).
Proof.
  intros Hp Hcards. revert hand0.
  induction iters as [|iters IH]; intros hand0; simpl.
  - destruct cards; reflexivity.
  - unfold Items.getitem, getitem. rewrite Hp. simpl. rewrite Hcards. simpl.
    destruct cards as [|c cards]; [reflexivity|].
    destruct (1 >? Z.of_nat (length (c :: cards)))%Z eqn:E;
      [apply Z.gtb_lt in E; simpl length in E; lia|].
    rewrite IH. destruct iters; reflexivity.
Qed.

(** X5. What [draw] returns, for a player of the match whose deck has its
    cards: the deck is the one it was, and the hand is empty, or the old
    hand with the shortened deck appended as one entry. *)
Lemma draw_spec (m : Match.t) (player num : string) (n : Z) (p : Player.t)
    (cards : list value) :
  py_int (VStr num) = Ok n ->
  Items.get (Match.players m) player = Some p ->
  Player.deck p !! "cards" = Some cards ->
  Match.draw m player num
  = Ok (Match.set_players m
          (Items.set (Match.players m) player
             (Player.set_hand p
                (match Z.to_nat n, cards with
                 | O, _ | _, [] => []
                 | S _, _ :: _ => Player.hand p ++ [VVec (removelast cards)]
                 end)))).
Proof.
  intros Hn Hp Hcards. unfold Match.draw. rewrite Hn. simpl.
  rewrite (draw_loop_eq m player p cards _ _ Hp Hcards). simpl.
  unfold Items.getitem. rewrite Hp. reflexivity.
Qed.

(** X25. [draw] itself records no event: the drawing right is consumed by
    the draw event that [do] records, not by the cards that move. *)
Lemma can_draw_after_draw (m m' : Match.t) (player num : string) ttype
    (t : string) :
  Match.draw m player num = Ok m' ->
  Match._can_draw m' ttype t = Match._can_draw m ttype t.
Proof.
  unfold Match.draw. intros H.
  apply bind_ok in H as (n & _ & H).
  apply bind_ok in H as (hand & _ & H).
  apply bind_ok in H as (p & _ & H).
  injection H as <-. reflexivity.
Qed.

(** C1, evaluated on the scenario of the design document: [p1] holds no
    card and has five in the deck, and draws three.  The deck keeps its
    five cards, and the hand receives a single entry, which is not a card
    id but the vector of the first four cards: the hand grows by 1, not by
    [min(3, 5)], and deck and hand add up to 6, not to 5. *)
Theorem C1_draw_scenario :
  exists m' p',
    Match.draw scenario "p1" "3" = Ok m'
    /\ Items.get (Match.players m') "p1" = Some p'
    /\ Player.deck p' !! "cards" = Some p1_cards
    /\ Player.hand p' = [VVec [VStr "c1"; VStr "c2"; VStr "c3"; VStr "c4"]]
    /\ length (Player.hand p') = 1%nat
    /\ (length p1_cards + length (Player.hand p') = 6)%nat.
Proof.
  eexists. eexists.
  split; [vm_compute; reflexivity|].
  split; [vm_compute; reflexivity|].
  repeat split.
Qed.

(** * Further properties of the engine *)

(** ** Recording events *)

Lemma do_snoc (m : Match.t) (e a : string) (val : value)
    (pre : list (list Event.t)) (open : list Event.t) :
  Match.turns m = pre ++ [open] ->
  Match.do m e a val
  = Ok (Match.set_turns m (pre ++ [open ++ [Event.mk e a val]])).
Proof.
  intros Hturns.
  rewrite (do_open m e a val open) by (rewrite Hturns; apply last_snoc).
  rewrite Hturns, removelast_last. reflexivity.
Qed.

Lemma do_inv (m m' : Match.t) (e a : string) (val : value) :
  Match.do m e a val = Ok m' ->
  exists pre open,
    Match.turns m = pre ++ [open]
    /\ m' = Match.set_turns m (pre ++ [open ++ [Event.mk e a val]]).
Proof.
  intros H. destruct (last (Match.turns m)) as [open|] eqn:Hlast.
  - apply last_Some in Hlast as [pre Hpre]. exists pre, open.
    split; [assumption|]. rewrite (do_snoc m e a val pre open Hpre) in H.
    congruence.
  - unfold Match.do, getitem_last in H. rewrite Hlast in H. discriminate.
Qed.

(** X1. [do] returns a state exactly when a turn is open, and that
    state is the given one with one event appended at the end of the open
    turn: the turns before it and every other field stay as they were. *)
Theorem do_appends_one_event (m m' : Match.t) (e a : string) (val : value) :
  Match.do m e a val = Ok m'
  <-> exists pre open,
        Match.turns m = pre ++ [open]
        /\ m' = Match.set_turns m (pre ++ [open ++ [Event.mk e a val]]).
Proof.
  split; [apply do_inv|].
  intros (pre & open & Hturns & ->). apply do_snoc, Hturns.
Qed.

(** X2. [do] checks nothing but that a turn is open: it succeeds for
    every actor, attribute and value exactly when [turns] is not empty,
    and raises [IndexError] otherwise. *)
Theorem do_succeeds_iff_open_turn (m : Match.t) (e a : string) (val : value) :
  ((exists m', Match.do m e a val = Ok m') <-> Match.turns m <> [])
  /\ (Match.do m e a val = Err IndexError <-> Match.turns m = []).
Proof.
  destruct (Match.turns m) as [|t0 ts] eqn:Hturns.
  - unfold Match.do, getitem_last. rewrite Hturns. simpl.
    split; split; try tauto; try reflexivity.
    intros [m' H]. discriminate.
  - destruct (last (t0 :: ts)) as [open|] eqn:Hlast;
      [|apply last_None in Hlast; discriminate].
    rewrite (do_open m e a val open) by (rewrite Hturns; exact Hlast).
    split; split; try discriminate; eauto.
Qed.

(** X3. After [end_turn], [do] always succeeds, whatever [turns] was, and
    the event opens the new turn: all earlier turn logs, the one just
    closed included, are kept as they were. *)
Theorem do_after_end_turn (m : Match.t) (actor e a : string) (val : value) :
  Match.do (Match.end_turn m actor) e a val
  = Ok (Match.set_turns m (Match.turns m ++ [[Event.mk e a val]])).
Proof.
  rewrite (do_snoc _ e a val (Match.turns m) []) by reflexivity.
  reflexivity.
Qed.

(** X4. Of the four capabilities only [can_draw] can fail: on a [Player]
    target it raises [IndexError] exactly when the match has no turn;
    on a [Field] target it answers [False] even then. *)
Theorem can_draw_raises_iff (m : Match.t) (t : string) :
  (Match._can_draw m Target.Player t = Err IndexError <-> Match.turns m = [])
  /\ ((exists b, Match._can_draw m Target.Player t = Ok b)
      <-> Match.turns m <> [])
  /\ Match._can_draw m Target.Field t = Ok false.
Proof.
  destruct (last (Match.turns m)) as [open|] eqn:Hlast.
  - rewrite (can_draw_open m t open Hlast).
    assert (Match.turns m <> []) by (intros H; rewrite H in Hlast; discriminate).
    repeat split; try discriminate; try tauto; eauto.
  - unfold Match._can_draw, getitem_last. rewrite Hlast. simpl.
    apply last_None in Hlast.
    repeat split; try tauto. intros [b H]. discriminate.
Qed.

(** ** Drawing *)




Lemma scenario_draw_three :
  Match.draw scenario "p1" "3" = Ok scenario_drawn.
Proof. reflexivity. Qed.

Lemma draw_spec_witness :
  (Match.draw scenario "p1" "3" = Ok scenario_drawn
   /\ Match.draw board "bot1" " 0 " = Ok board_drawn_none)
  /\ scenario_drawn <> scenario /\ board_drawn_none <> board.
Proof.
  split; [split|split; discriminate].
  - apply (draw_spec scenario "p1" "3" 3 (new_player "P1" p1_cards) p1_cards);
      reflexivity.
  - exact (draw_spec board "bot1" " 0 " 0
             (Player.mk (PlayerPot.mk None 0) 5000 5000 "BOT1"
                {[ "cards" := p1_cards ]} [VStr "c9"])
             p1_cards eq_refl eq_refl eq_refl).
Defined.



(** X7. Drawing for someone who is not a player of the match raises
    [KeyError] carrying that name, whatever the count. *)
Theorem draw_missing_player (m : Match.t) (player num : string) (n : Z) :
  py_int (VStr num) = Ok n ->
  Items.get (Match.players m) player = None ->
  Match.draw m player num = Err (KeyError player).
Proof.
  intros Hn Hp. unfold Match.draw. rewrite Hn. simpl.
  destruct (Z.to_nat n) as [|k]; simpl; unfold Items.getitem; rewrite Hp;
    reflexivity.
Qed.

Lemma draw_missing_player_witness :
  Match.draw scenario "p3" " 3 " = Err (KeyError "p3").
Proof. apply (draw_missing_player scenario "p3" " 3 " 3); reflexivity. Defined.

Lemma can_draw_after_draw_witness :
  scenario_drawn <> scenario
  /\ Match._can_draw scenario_drawn Target.Player "p1"
     = Match._can_draw scenario Target.Player "p1".
Proof.
  split; [discriminate|].
  exact (can_draw_after_draw scenario scenario_drawn "p1" "3" Target.Player
           "p1" scenario_draw_three).
Defined.

(** ** Completion *)

Lemma first_alive_sound (d : list (string * Player.t)) (ks : list string)
    (w : string) :
  Match.first_alive d ks = Ok (Some w) ->
  exists p, Items.get d w = Some p /\ 0 < Player.hp p.
Proof.
  induction ks as [|k ks IH]; simpl; [discriminate|].
  unfold Items.getitem. destruct (Items.get d k) as [p|] eqn:Hk; simpl;
    [|discriminate].
  destruct (Player.hp p >? 0)%Z eqn:Hhp; [|exact IH].
  intros [= <-]. exists p. split; [assumption | lia].
Qed.

(** X8. Whenever [end()] returns, either nothing was decided and the
    state is the one given, or [winner] is a player of the match with hit
    points left and [finished] is the clock reading; every field other
    than these two is as it was.  A winner or a finish time already
    recorded is not consulted: when some player is defeated, the outcome
    is the same whatever they were. *)
Theorem end_winner_alive (now : Z) (m m' : Match.t) :
  Match.end_ now m = Ok m' ->
  (m' = m
   \/ exists w p,
        Match.winner m' = Some w
        /\ Match.finished m' = Some now
        /\ Items.get (Match.players m) w = Some p
        /\ 0 < Player.hp p)
  /\ (Match.players m' = Match.players m
      /\ Match.turns m' = Match.turns m
      /\ Match.cursor m' = Match.cursor m
      /\ Match.responses m' = Match.responses m
      /\ Match.id m' = Match.id m
      /\ Match.fields m' = Match.fields m
      /\ Match.opener m' = Match.opener m
      /\ Match.created m' = Match.created m
      /\ Match.futures m' = Match.futures m)
  /\ (forall w0 f0,
        some_defeated (Match.players m) ->
        Match.end_ now
          (Match.mk (Match.id m) (Match.fields m) (Match.opener m)
             (Match.created m) f0 w0 (Match.futures m) (Match.players m)
             (Match.responses m) (Match.cursor m) (Match.turns m))
        = Match.end_ now m).
Proof.
  intros H. split; [|split].
  - revert H. unfold Match.end_. destruct (existsb _ _); simpl.
    + destruct (Match.first_alive _ _) as [[w|]|e] eqn:Hw; simpl;
        try discriminate.
      intros [= <-]. right. apply first_alive_sound in Hw as (p & Hp & Hhp).
      exists w, p. auto.
    + intros [= <-]. left. reflexivity.
  - revert H. unfold Match.end_. destruct (existsb _ _); simpl.
    + destruct (Match.first_alive _ _) as [[w|]|e]; simpl; try discriminate.
      intros [= <-]. repeat split.
    + intros [= <-]. repeat split.
  - intros w0 f0 Hdef. apply any_defeated_spec in Hdef.
    unfold Match.end_. simpl. rewrite Hdef. simpl.
    destruct (Match.first_alive _ _) as [[w|]|e]; reflexivity.
Qed.

Lemma end_winner_alive_witness :
  (lost_decided = lost_match
   \/ exists w p,
        Match.winner lost_decided = Some w
        /\ Match.finished lost_decided = Some 5
        /\ Items.get (Match.players lost_match) w = Some p
        /\ 0 < Player.hp p)
  /\ Match.winner lost_decided = Some "p2"
  /\ lost_decided <> lost_match.
Proof.
  split; [|split; [reflexivity | discriminate]].
  apply (end_winner_alive 5 lost_match lost_decided). reflexivity.
Defined.

(** X9. Running [end()] on its own result decides the match again from
    the players: at a later clock reading it gives what a single run at
    that reading gives, so the winner stays and [finished] moves to the
    later time; at the same reading it changes nothing. *)
Theorem end_twice (now1 now2 : Z) (m m1 : Match.t) :
  Match.end_ now1 m = Ok m1 ->
  Match.end_ now2 m1 = Match.end_ now2 m
  /\ Match.end_ now1 m1 = Ok m1.
Proof.
  intros H. pose proof H as H1. revert H.
  unfold Match.end_. destruct (existsb _ _) eqn:Hex; simpl.
  - destruct (Match.first_alive _ _) as [[w|]|e] eqn:Hw; simpl;
      try discriminate.
    intros [= <-]. simpl. rewrite Hex, Hw. simpl. split; reflexivity.
  - intros [= <-]. rewrite Hex. simpl. split; reflexivity.
Qed.

Lemma end_twice_witness :
  Match.end_ 9
    (Match.set_finished (Match.set_winner lost_match (Some "p2")) (Some 5))
  = Match.end_ 9 lost_match.
Proof.
  exact (proj1 (end_twice 5 9 lost_match _ eq_refl)).
Defined.

(** ** Rotation *)

Lemma rotate_returns_self_witness : turned_card = turned_card.
Proof. apply (rotate_returns_self turned_card turned_card 5). reflexivity. Defined.

Lemma rotate_locked_witness : Card.rotate locked_card 90 = Err AssertionError.
Proof. apply (rotate_locked locked_card 90). reflexivity. Defined.

(** X12. On an unlocked card [rotate] raises [TypeError] exactly when the
    raw data holds a rotation counter that is not a number (text, a null,
    a vector); a missing counter counts as 0. *)
Theorem rotate_type_error (c : Card.t) (degrees : Z) :
  truthy (raw c "_rotation_locked") = false ->
  (Card.rotate c degrees = Err TypeError
   <-> exists x, Card.data c !! "_rotation" = Some x /\ non_numeric x).
Proof.
  unfold Card.rotate, raw. intros ->.
  destruct (Card.data c !! "_rotation") as [x|] eqn:Hx; simpl.
  - destruct x as [|b|z|f|s0|l]; simpl; split;
      try (intros _; eexists; split; [reflexivity | exact I]);
      try (intros _; reflexivity);
      try (intros (x & [= <-] & []); fail);
      try discriminate;
      unfold float_of_Z; destruct (PrimFloat.is_infinity _); discriminate.
  - split; [discriminate | intros (x & Hx' & _); discriminate].
Qed.

Lemma rotate_type_error_witness : Card.rotate odd_card 90 = Err TypeError.
Proof.
  apply (rotate_type_error odd_card 90); [reflexivity|].
  exists (VStr "north"). split; [reflexivity | exact I].
Defined.

(** ** Dispatch *)

Lemma get_unknown_witness :
  Match.get sample_base scenario "fly" Target.Player "p1"
  = Err (Exception "Match cannot get fly").
Proof.
  apply (get_unknown sample_base scenario "fly" Target.Player "p1");
    [|reflexivity].
  intros H. apply list_elem_of_In in H. simpl in H. intuition discriminate.
Defined.

(** ** Card effects *)

Section Effects.
Variable py_ne : value -> value -> bool.
Variable py_str : value -> string.

(** X13. Whatever effect applier succeeds ([v1_buff], the two rotation
    preventions), its result is the given match with one event appended
    to the open turn, authored by [played_by] and carrying no value:
    players, hit points, hands and field slots are never changed. *)
Theorem effect_is_one_event (m m' : Match.t) (card_id played_by : string) :
  let one_event :=
    exists text pre open,
      Match.turns m = pre ++ [open]
      /\ m' = Match.set_turns m
                (pre ++ [open ++ [Event.mk played_by text VNone]]) in
  (forall stat amt,
     Match.v1_buff m card_id played_by stat amt = Ok m' -> one_event)
  /\ (forall n target attribute val,
        Match.v1_prevent_rotation_N_times m card_id played_by n target
          attribute val = Ok m' -> one_event)
  /\ (forall target attribute val,
        Match.v1_prevent_rotation_continuous py_ne py_str m card_id
          played_by target attribute val = Ok m' -> one_event).
Proof.
  intros one_event. subst one_event. split; [|split].
  - intros stat amt H. apply do_inv in H. eauto.
  - intros n target attribute val H. apply do_inv in H. eauto.
  - intros target attribute val H. unfold Match.v1_prevent_rotation_continuous in H.
    apply bind_ok in H as (_ & _ & H). apply do_inv in H. eauto.
Qed.

(** X14. The N-turn rotation prevention records the same event whatever
    target, attribute and value it is given: the target is dropped, and
    the text names [None] in its place. *)
Theorem N_times_drops_target (m : Match.t) (card_id played_by : string)
    (n : Z) (target target' : string) (attribute attribute' : option string)
    (val val' : value) :
  Match.v1_prevent_rotation_N_times m card_id played_by n target attribute val
  = Match.v1_prevent_rotation_N_times m card_id played_by n target'
      attribute' val'
  /\ Match.v1_prevent_rotation_N_times m card_id played_by n target
       attribute val
     = Match.do m played_by
         ("player applies " +:+ str_of_Z n +:+ "-turn effect " +:+ card_id
          +:+ " on None, preventing rotation") VNone.
Proof. split; reflexivity. Qed.

(** X15. The continuous prevention compares nothing unless an attribute
    is given and the target starts with [f-]: for any other target the
    expected value is ignored, the field is not read, and the effect is
    recorded. *)
Theorem continuous_check_skipped (m : Match.t) (card_id played_by : string)
    (target : string) (attribute : option string) (val : value) :
  attribute = None \/ startswith target "f-" = false ->
  Match.v1_prevent_rotation_continuous py_ne py_str m card_id played_by
    target attribute val
  = Match.do m played_by (continuous_text card_id target) VNone.
Proof.
  unfold Match.v1_prevent_rotation_continuous.
  intros [-> | Hf]; [reflexivity|].
  destruct attribute; [rewrite Hf|]; reflexivity.
Qed.

(** X16. When the target [f-row-col] names a field slot that holds a
    card, the effect is recorded if the expected value equals the card's
    value for the attribute, read through the default mapping; if they
    differ, an error naming the card and both values is raised and
    nothing is recorded. *)
Theorem continuous_check_on_slot (m : Match.t) (card_id played_by : string)
    (target attribute x row col : string) (val : value) (r c : Z)
    (field : list (option (gmap string value))) (data : gmap string value) :
  startswith target "f-" = true ->
  split "-" target = [x; row; col] ->
  py_int (VStr row) = Ok r ->
  getitem_at (Match.fields m) r = Ok field ->
  py_int (VStr col) = Ok c ->
  getitem_at field c = Ok (Some data) ->
  let card := Card.mk data ((fun v => (v, VNone)) <$> DefaultCardMapping) in
  Match.v1_prevent_rotation_continuous py_ne py_str m card_id played_by
    target (Some attribute) val
  = if py_ne val (Card.get card attribute)
    then Err (Exception
                ("Cannot apply v1_prevent_rotation_continuous on "
                 +:+ py_str (Card.get card "name") +:+ " - "
                 +:+ py_str val +:+ " <> "
                 +:+ py_str (Card.get card attribute)))
    else Match.do m played_by (continuous_text card_id target) VNone.
Proof.
  intros Hf Hsplit Hr Hfield Hc Hslot card.
  unfold Match.v1_prevent_rotation_continuous.
  rewrite Hf, Hsplit, Hr. cbn [bind]. rewrite Hfield. cbn [bind].
  rewrite Hc. cbn [bind]. rewrite Hslot. cbn [bind Match.slot_card].
  fold card. destruct (py_ne val (Card.get card attribute)); reflexivity.
Qed.

(** X17. Asking for an attribute of an empty field slot raises
    [TypeError]: the card view cannot be built on no data, and nothing is
    recorded. *)
Theorem continuous_empty_slot (m : Match.t) (card_id played_by : string)
    (target attribute x row col : string) (val : value) (r c : Z)
    (field : list (option (gmap string value))) :
  startswith target "f-" = true ->
  split "-" target = [x; row; col] ->
  py_int (VStr row) = Ok r ->
  getitem_at (Match.fields m) r = Ok field ->
  py_int (VStr col) = Ok c ->
  getitem_at field c = Ok None ->
  Match.v1_prevent_rotation_continuous py_ne py_str m card_id played_by
    target (Some attribute) val
  = Err TypeError.
Proof.
  intros Hf Hsplit Hr Hfield Hc Hslot.
  unfold Match.v1_prevent_rotation_continuous.
  rewrite Hf, Hsplit, Hr. cbn [bind]. rewrite Hfield. cbn [bind].
  rewrite Hc. cbn [bind]. rewrite Hslot. reflexivity.
Qed.

(** X18. A field target that does not consist of exactly three parts
    separated by [-] raises [ValueError] when an attribute is given. *)
Theorem continuous_malformed_target (m : Match.t)
    (card_id played_by target attribute : string) (val : value) :
  startswith target "f-" = true ->
  length (split "-" target) <> 3%nat ->
  Match.v1_prevent_rotation_continuous py_ne py_str m card_id played_by
    target (Some attribute) val
  = Err ValueError.
Proof.
  intros Hf Hlen. unfold Match.v1_prevent_rotation_continuous. rewrite Hf.
  destruct (split "-" target) as [|x [|row [|col [|y l]]]];
    simpl in Hlen; try reflexivity.
  contradiction.
Qed.

End Effects.

Lemma continuous_check_skipped_witness :
  Match.v1_prevent_rotation_continuous differ show board "c1" "p2" "bot1"
    (Some "atk") (VInt 99)
  = Match.do board "p2" (continuous_text "c1" "bot1") VNone.
Proof.
  apply (continuous_check_skipped differ show board "c1" "p2" "bot1").
  right. reflexivity.
Defined.

Lemma continuous_check_on_slot_witness :
  Match.v1_prevent_rotation_continuous differ show board "c1" "p2" "f-0-1"
    (Some "atk") (VInt 8)
  = Err (Exception
           "Cannot apply v1_prevent_rotation_continuous on Wolf - 8 <> 7").
Proof.
  apply (continuous_check_on_slot differ show board "c1" "p2" "f-0-1" "atk"
           "f" "0" "1" (VInt 8) 0 1 [Some wolf; Some wolf; Some wolf] wolf);
    reflexivity.
Defined.

Lemma continuous_empty_slot_witness :
  Match.v1_prevent_rotation_continuous differ show board "c1" "p2" "f-1-0"
    (Some "atk") (VInt 7)
  = Err TypeError.
Proof.
  apply (continuous_empty_slot differ show board "c1" "p2" "f-1-0" "atk"
           "f" "1" "0" (VInt 7) 1 0 [None; Some wolf; None]);
    reflexivity.
Defined.

Lemma continuous_malformed_target_witness :
  Match.v1_prevent_rotation_continuous differ show board "c1" "p2" "f-1"
    (Some "atk") (VInt 7)
  = Err ValueError.
Proof.
  apply (continuous_malformed_target differ show board "c1" "p2" "f-1" "atk");
    [reflexivity | vm_compute; discriminate].
Defined.

(** A row index past the last row raises [IndexError]. *)
Lemma getitem_at_past {A} (v : list A) (i : Z) :
  Z.of_nat (length v) <= i -> getitem_at v i = Err IndexError.
Proof.
  intros Hi. unfold getitem_at.
  destruct (i <? 0)%Z eqn:Hneg; [lia|].
  destruct (0 <=? i)%Z eqn:H0; destruct (i <? Z.of_nat (length v))%Z eqn:Hlt;
    simpl; try reflexivity.
  lia.
Qed.

(** ** The bot *)

Lemma choice_elem {A} (r : nat) (l : list A) (x : A) :
  choice r l = Ok x -> x ∈ l.
Proof.
  unfold choice. destruct (l !! _) as [y|] eqn:Hy; [|discriminate].
  intros [= <-]. eapply list_elem_of_lookup_2, Hy.
Qed.

Lemma choice_nonempty {A} (r : nat) (l : list A) :
  l <> [] -> exists x, choice r l = Ok x.
Proof.
  intros Hl. unfold choice.
  destruct (lookup_lt_is_Some_2 l (r mod length l)%nat) as [x Hx].
  - apply Nat.mod_upper_bound. destruct l; [contradiction | discriminate].
  - rewrite Hx. eauto.
Qed.

Lemma wait_hand_empty (fuel : nat) (m : Match.t) (name : string)
    (p : Player.t) :
  Items.get (Match.players m) name = Some p ->
  Player.hand p = [] ->
  Nemesis.wait_hand fuel m name = None.
Proof.
  intros Hp Hhand. induction fuel as [|fuel IH]; simpl; [reflexivity|].
  unfold Items.getitem. rewrite Hp, Hhand. exact IH.
Qed.

Lemma wait_hand_held (fuel : nat) (m : Match.t) (name : string)
    (p : Player.t) :
  Items.get (Match.players m) name = Some p ->
  Player.hand p <> [] ->
  Nemesis.wait_hand (S fuel) m name = Some (Ok tt).
Proof.
  intros Hp Hhand. simpl. unfold Items.getitem. rewrite Hp.
  destruct (1 >? Z.of_nat (length (Player.hand p)))%Z eqn:E; [|reflexivity].
  apply Z.gtb_lt in E. destruct (Player.hand p); [contradiction|].
  simpl length in E. lia.
Qed.

Section BotProperties.
Variable base_attr : string -> option Match.attr.
Variable py_str : value -> string.

Lemma play_inv (r : Nemesis.rolls) (name : string) (m m' : Match.t)
    (positions : list (list string))
    (options : list (string * string * value)) :
  Nemesis.play py_str r name m positions options = Ok m' ->
  (forall o, o ∈ options -> o.1.1 = name) ->
  exists pre open evs,
    Match.turns m = pre ++ [open]
    /\ m' = Match.set_turns m
              (pre ++ [open ++ evs ++ [Event.mk name "end_turn" VNone]])
    /\ (length evs <= 1)%nat
    /\ Forall (fun ev => Event.e ev = name) evs.
Proof.
  unfold Nemesis.play. intros H Hopt.
  apply bind_ok in H as (opts & Hopts & H).
  assert (Hall : forall o, o ∈ opts -> o.1.1 = name).
  { destruct (existsb _ positions).
    - apply bind_ok in Hopts as (p & _ & Hopts).
      apply bind_ok in Hopts as (card & _ & Hopts).
      apply bind_ok in Hopts as (row & _ & Hopts).
      apply bind_ok in Hopts as (pos & _ & Hopts).
      injection Hopts as <-. intros o Ho.
      apply elem_of_app in Ho as [Ho|Ho]; [auto|].
      apply list_elem_of_singleton in Ho. subst o. reflexivity.
    - injection Hopts as <-. exact Hopt. }
  destruct (0 <? length opts)%nat.
  - apply bind_ok in H as (chose & Hchose & H).
    apply bind_ok in H as (m1 & Hdo & H).
    apply do_inv in Hdo as (pre & open & Hturns & ->).
    rewrite (do_snoc _ name "end_turn" VNone pre
               (open ++ [Event.mk chose.1.1 chose.1.2 chose.2]))
      in H by reflexivity.
    injection H as <-.
    exists pre, open, [Event.mk chose.1.1 chose.1.2 chose.2].
    split; [assumption|]. split; [|split].
    + rewrite <- app_assoc. reflexivity.
    + simpl. lia.
    + constructor; [|constructor]. simpl. apply Hall.
      apply (choice_elem _ _ _ Hchose).
  - apply do_inv in H as (pre & open & Hturns & ->).
    exists pre, open, []. repeat split; auto.
Qed.

(** X19. When it is not the bot's turn, the bot returns the match it was
    given, whatever the generator rolls and without waiting. *)
Theorem nemesis_abstains (fuel : nat) (r : Nemesis.rolls) (self : Player.t)
    (m : Match.t) :
  Match._is_turn m Target.Player (Player.name self) = false ->
  Nemesis.do base_attr py_str fuel r self m = Some (Ok m).
Proof.
  intros Hturn. unfold Nemesis.do.
  destruct (get_registered base_attr m Target.Player (Player.name self))
    as (-> & _).
  rewrite Hturn. reflexivity.
Qed.

(** X20. When the bot has the turn and holds no card, it never returns:
    the match it polls is never updated, so no number of rounds ends the
    wait. *)
Theorem nemesis_waits_forever (fuel : nat) (r : Nemesis.rolls)
    (self p : Player.t) (m : Match.t) :
  Match._is_turn m Target.Player (Player.name self) = true ->
  Match.turns m <> [] ->
  Items.get (Match.players m) (Player.name self) = Some p ->
  Player.hand p = [] ->
  Nemesis.do base_attr py_str fuel r self m = None.
Proof.
  intros Hturn Hturns Hp Hhand. unfold Nemesis.do.
  destruct (get_registered base_attr m Target.Player (Player.name self))
    as (-> & _ & _ & ->).
  rewrite Hturn. cbn [truthy negb].
  destruct (last (Match.turns m)) as [open|] eqn:Hlast;
    [|apply last_None in Hlast; contradiction].
  rewrite (can_draw_open m _ open Hlast). cbn [bind].
  rewrite (wait_hand_empty fuel m _ p Hp Hhand). reflexivity.
Qed.

(** X21. Whenever the bot returns a match, it is the one it was given, or
    that one with at most one event of the bot's and then the bot's
    [end_turn] event appended to the open turn.  The number of turn logs,
    the cursor, the players with their hands and decks, and the field are
    unchanged: the bot never opens the next turn, never moves a card and
    never places one. *)
Theorem nemesis_adds_events_only (fuel : nat) (r : Nemesis.rolls)
    (self : Player.t) (m m' : Match.t) :
  Nemesis.do base_attr py_str fuel r self m = Some (Ok m') ->
  m' = m
  \/ exists pre open evs,
       Match.turns m = pre ++ [open]
       /\ m' = Match.set_turns m
                 (pre ++ [open ++ evs
                          ++ [Event.mk (Player.name self) "end_turn" VNone]])
       /\ (length evs <= 1)%nat
       /\ Forall (fun ev => Event.e ev = Player.name self) evs.
Proof.
  unfold Nemesis.do.
  destruct (get_registered base_attr m Target.Player (Player.name self))
    as (-> & _ & _ & ->).
  destruct (Match._is_turn m Target.Player (Player.name self));
    cbn [truthy negb]; [|intros [= <-]; left; reflexivity].
  destruct (Match._can_draw m Target.Player (Player.name self)) as [can|e];
    cbn [bind]; [|discriminate].
  destruct (Nemesis.wait_hand fuel m (Player.name self)) as [[u|e]|];
    try discriminate.
  intros [= H]. right. apply play_inv in H; [exact H|].
  intros o Ho. destruct can; simpl in Ho.
  - apply list_elem_of_singleton in Ho. subst o. reflexivity.
  - apply elem_of_nil in Ho. contradiction.
Qed.

(** X22. When the bot has the turn and a card in hand, some row of the
    board has a free slot, and the generator picks a row that has none,
    the bot raises [IndexError] and records nothing, also when it would
    have chosen to draw. *)
Theorem nemesis_full_row_crash (fuel : nat) (r : Nemesis.rolls)
    (self p : Player.t) (m : Match.t) :
  let rows := Nemesis.positions (Match.fields m) in
  Match._is_turn m Target.Player (Player.name self) = true ->
  Match.turns m <> [] ->
  Items.get (Match.players m) (Player.name self) = Some p ->
  Player.hand p <> [] ->
  (exists row, row ∈ rows /\ row <> []) ->
  rows !! (Nemesis.roll_row r mod length rows)%nat = Some [] ->
  Nemesis.do base_attr py_str (S fuel) r self m = Some (Err IndexError).
Proof.
  intros rows Hturn Hturns Hp Hhand (row & Hrow & Hne) Hpick.
  unfold Nemesis.do. fold rows.
  destruct (get_registered base_attr m Target.Player (Player.name self))
    as (-> & _ & _ & ->).
  rewrite Hturn. cbn [truthy negb].
  destruct (last (Match.turns m)) as [open|] eqn:Hlast;
    [|apply last_None in Hlast; contradiction].
  rewrite (can_draw_open m _ open Hlast). cbn [bind].
  rewrite (wait_hand_held fuel m _ p Hp Hhand).
  f_equal. unfold Nemesis.play.
  replace (existsb _ rows) with true.
  2:{ symmetry. apply existsb_exists. exists row.
      split; [apply list_elem_of_In, Hrow|].
      rewrite bool_decide_eq_false_2; auto. }
  unfold Items.getitem. rewrite Hp. cbn [bind].
  destruct (choice_nonempty (Nemesis.roll_card r) (Player.hand p) Hhand)
    as [card ->].
  cbn [bind]. unfold choice at 1. rewrite Hpick. reflexivity.
Qed.

End BotProperties.

(** X23. The positions the bot chooses from are the free slots of the
    first three rows of the field, each written [f-row-slot]: a position
    is offered exactly when that slot exists and is empty. *)
Theorem positions_are_free_slots
    (fields : list (list (option (gmap string value)))) (pos : string) :
  (exists row, row ∈ Nemesis.positions fields /\ pos ∈ row)
  <-> exists i j field,
        (i < 3)%nat /\ fields !! i = Some field /\ field !! j = Some None
        /\ pos = "f-" +:+ str_of_Z (Z.of_nat i) +:+ "-"
                 +:+ str_of_Z (Z.of_nat j).
Proof.
  unfold Nemesis.positions, Nemesis.row_positions. split.
  - intros (row & Hrow & Hpos).
    apply list_elem_of_fmap in Hrow as ([i field] & -> & Hin).
    apply list_elem_of_In, filter_In in Hin as [Hin Hi].
    apply list_elem_of_In, elem_of_lookup_imap in Hin
      as (i' & field' & [= -> ->] & Hfield).
    apply list_elem_of_omap in Hpos as ([j spot] & Hj & Hfree).
    apply elem_of_lookup_imap in Hj as (j' & spot' & [= -> ->] & Hspot).
    simpl in Hfree, Hi. destruct spot' as [card|]; [discriminate|].
    injection Hfree as <-. exists i', j', field'.
    apply Nat.ltb_lt in Hi. auto.
  - intros (i & j & field & Hi & Hfield & Hspot & ->).
    eexists. split.
    + apply list_elem_of_fmap. exists (i, field). split; [reflexivity|].
      apply list_elem_of_In, filter_In. split.
      * apply list_elem_of_In.
        apply (elem_of_lookup_imap_2 pair fields field i Hfield).
      * simpl. apply Nat.ltb_lt, Hi.
    + simpl. apply list_elem_of_omap. exists (j, None). split; [|reflexivity].
      apply (elem_of_lookup_imap_2 pair field None j Hspot).
Qed.

Lemma nemesis_abstains_witness :
  Nemesis.do sample_base show 0 (Nemesis.mk_rolls 0 0 0 0) (bot "p2")
    scenario
  = Some (Ok scenario).
Proof.
  apply (nemesis_abstains sample_base show 0 (Nemesis.mk_rolls 0 0 0 0)
           (bot "p2") scenario).
  reflexivity.
Defined.

Lemma nemesis_waits_forever_witness :
  Nemesis.do sample_base show 1000 (Nemesis.mk_rolls 0 0 0 0) (bot "p1")
    scenario
  = None.
Proof.
  apply (nemesis_waits_forever sample_base show 1000
           (Nemesis.mk_rolls 0 0 0 0) (bot "p1") (new_player "P1" p1_cards)
           scenario);
    try reflexivity.
  discriminate.
Defined.

Lemma board_bot_plays :
  Nemesis.do sample_base show 1 (Nemesis.mk_rolls 0 1 0 1) (bot "bot1")
    board
  = Some (Ok (Match.set_turns board
                [[Event.mk "bot1"
                    "bot plays card c9 to field position f-1-0" VNone;
                  Event.mk "bot1" "end_turn" VNone]])).
Proof. reflexivity. Qed.

Lemma nemesis_adds_events_only_witness :
  Match.set_turns board
    [[Event.mk "bot1" "bot plays card c9 to field position f-1-0" VNone;
      Event.mk "bot1" "end_turn" VNone]]
  = board
  \/ exists pre open evs,
       Match.turns board = pre ++ [open]
       /\ Match.set_turns board
            [[Event.mk "bot1" "bot plays card c9 to field position f-1-0"
                VNone;
              Event.mk "bot1" "end_turn" VNone]]
          = Match.set_turns board
              (pre ++ [open ++ evs ++ [Event.mk "bot1" "end_turn" VNone]])
       /\ (length evs <= 1)%nat
       /\ Forall (fun ev => Event.e ev = "bot1") evs.
Proof.
  exact (nemesis_adds_events_only sample_base show 1
           (Nemesis.mk_rolls 0 1 0 1) (bot "bot1") board _ board_bot_plays).
Defined.

Lemma nemesis_full_row_crash_witness :
  Nemesis.do sample_base show 1 (Nemesis.mk_rolls 0 0 0 0) (bot "bot1")
    board
  = Some (Err IndexError).
Proof.
  apply (nemesis_full_row_crash sample_base show 0
           (Nemesis.mk_rolls 0 0 0 0) (bot "bot1")
           (Player.mk (PlayerPot.mk None 0) 5000 5000 "BOT1"
              {[ "cards" := p1_cards ]} [VStr "c9"])
           board);
    try reflexivity; try discriminate.
  exists ["f-1-0"; "f-1-2"]. split; [|discriminate].
  apply list_elem_of_In. vm_compute. auto.
Defined.

(** X26. A field target whose row number is past the last row of the
    field raises [IndexError] when an attribute is given; nothing is
    recorded. *)
Theorem continuous_row_out_of_range (py_ne : value -> value -> bool)
    (py_str : value -> string) (m : Match.t)
    (card_id played_by target attribute x row col : string) (val : value)
    (r : Z) :
  startswith target "f-" = true ->
  split "-" target = [x; row; col] ->
  py_int (VStr row) = Ok r ->
  Z.of_nat (length (Match.fields m)) <= r ->
  Match.v1_prevent_rotation_continuous py_ne py_str m card_id played_by
    target (Some attribute) val
  = Err IndexError.
Proof.
  intros Hf Hsplit Hr Hpast. unfold Match.v1_prevent_rotation_continuous.
  rewrite Hf, Hsplit, Hr. cbn [bind].
  rewrite (getitem_at_past _ _ Hpast). reflexivity.
Qed.

Lemma continuous_row_out_of_range_witness :
  Match.v1_prevent_rotation_continuous differ show board "c1" "p2" "f-9-0"
    (Some "atk") (VInt 7)
  = Err IndexError.
Proof.
  apply (continuous_row_out_of_range differ show board "c1" "p2" "f-9-0"
           "atk" "f" "9" "0" (VInt 7) 9);
    try reflexivity.
  simpl. lia.
Defined.
